(** * Portfolio page: theme preference and viewport observer

    A shallow embedding of the two pieces of browser-state logic of
    [src/App.tsx]: the [useTheme] hook (initial resolution of the light/dark
    flag, the effect that mirrors it to the document root and to
    [localStorage], the toggle button) and the [IntersectionObserver] effect
    of [App] (reveal-on-scroll and the active navigation section), together
    with what [App] renders from that state: the navigation links and the
    elements the observer is attached to.

    The browser is an explicit state; JavaScript exceptions are explicit
    completions, threaded by a small state-and-exception monad. *)

From Stdlib Require Import QArith Ascii.
From stdpp Require Import base option list strings gmap.

Local Open Scope string_scope.

(** ** JavaScript completions over a mutable host state *)

Module JS.

(** The exceptions the modelled host calls can raise. *)
Inductive exn : Type :=
| SecurityError    (* access to [localStorage] is denied *)
| TypeError        (* calling something that is not a function *)
| ReferenceError.  (* an undeclared global identifier *)

Inductive completion (A : Type) : Type :=
| Normal (a : A)
| Throw (e : exn).
Arguments Normal {A} a.
Arguments Throw {A} e.

(** A statement runs on a host state [S]; whatever it mutated before an
    exception stays mutated. *)
Definition M (S A : Type) : Type := S -> completion A * S.

Definition ret {S A} (a : A) : M S A := fun s => (Normal a, s).

Definition throw {S A} (e : exn) : M S A := fun s => (Throw e, s).

Definition bind {S A B} (m : M S A) (k : A -> M S B) : M S B :=
  fun s =>
    match m s with
    | (Normal a, s') => k a s'
    | (Throw e, s') => (Throw e, s')
    end.

Definition get {S} : M S S := fun s => (Normal s, s).

Definition modify {S} (f : S -> S) : M S unit := fun s => (Normal tt, f s).

(** [xs.forEach(f)] *)
Fixpoint forEach {S A} (xs : list A) (f : A -> M S unit) : M S unit :=
  match xs with
  | [] => ret tt
  | x :: xs' => bind (f x) (fun _ => forEach xs' f)
  end.

(** JavaScript truthiness of a value of type [string | null]. *)
Definition truthy (v : option string) : bool :=
  match v with
  | Some s => negb (String.eqb s "")
  | None => false
  end.

(** [v === s] for [v : string | null] and a string literal [s]. *)
Definition strict_eq (v : option string) (s : string) : bool :=
  match v with
  | Some t => String.eqb t s
  | None => false
  end.

(** A [DOMTokenList]: an ordered set of class names. *)
Definition tokens_add (tok : string) (l : list string) : list string :=
  if bool_decide (tok ∈ l) then l else (l ++ [tok])%list.

Definition tokens_remove (tok : string) (l : list string) : list string :=
  filter (fun t => t ≠ tok) l.

End JS.

Declare Scope js_scope.
Delimit Scope js_scope with js.
Notation "x <- m ;; k" := (JS.bind m (fun x => k))
  (at level 100, m at next level, right associativity) : js_scope.
Notation "m ;;; k" := (JS.bind m (fun _ => k))
  (at level 100, right associativity) : js_scope.

(** ** The [useTheme] hook *)

Module Theme.
Import JS.
Local Open Scope js_scope.

(** What [useTheme] can see of a browser window. *)
Record Browser : Type := mkBrowser {
  (** [document.documentElement.classList] *)
  rootClassList : list string;
  (** [localStorage]; [None] when the host denies access to it, so that
      every use raises *)
  localStorage : option (gmap string string);
  (** [window.matchMedia('(prefers-color-scheme: dark)').matches]; [None]
      when the host has no [matchMedia] function *)
  prefersDark : option bool
}.

Definition getItem (key : string) : M Browser (option string) :=
  fun w =>
    match localStorage w with
    | Some store => (Normal (store !! key), w)
    | None => (Throw SecurityError, w)
    end.

Definition setItem (key value : string) : M Browser unit :=
  fun w =>
    match localStorage w with
    | Some store =>
        (Normal tt,
         mkBrowser (rootClassList w) (Some (<[key := value]> store)) (prefersDark w))
    | None => (Throw SecurityError, w)
    end.

Definition matchMedia_matches : M Browser bool :=
  fun w =>
    match prefersDark w with
    | Some b => (Normal b, w)
    | None => (Throw TypeError, w)
    end.

Definition root_classList_add (tok : string) : M Browser unit :=
  modify (fun w =>
    mkBrowser (tokens_add tok (rootClassList w)) (localStorage w) (prefersDark w)).

Definition root_classList_remove (tok : string) : M Browser unit :=
  modify (fun w =>
    mkBrowser (tokens_remove tok (rootClassList w)) (localStorage w) (prefersDark w)).

(** The part of the [useState] initializer that runs when [window] exists. *)
Definition readPreference : M Browser bool :=
  stored <- getItem "theme" ;;
  if truthy stored then ret (strict_eq stored "dark")
  else matchMedia_matches.

(** The lazy initializer of [useState<boolean>]; [host = None] is
    [typeof window === 'undefined']. *)
Definition initialIsDark (host : option Browser) : completion bool :=
  match host with
  | None => Normal false
  | Some w => fst (readPreference w)
  end.

(** The body of the [useEffect] with dependency [isDark]. *)
Definition themeEffect (isDark : bool) : M Browser unit :=
  if isDark then
    root_classList_add "dark" ;;; setItem "theme" "dark"
  else
    root_classList_remove "dark" ;;; setItem "theme" "light".

(** The hook's state together with the window it lives in. *)
Record State : Type := mkState {
  isDark : bool;
  window : Browser
}.

(** Commit a value of [isDark] and run the effect that depends on it. *)
Definition commit (v : bool) (w : Browser) : completion State :=
  match themeEffect v w with
  | (Normal _, w') => Normal (mkState v w')
  | (Throw e, _) => Throw e
  end.

(** First render in a browser: the initializer, then the effect. *)
Definition mount (w : Browser) : completion State :=
  match initialIsDark (Some w) with
  | Normal v => commit v w
  | Throw e => Throw e
  end.

(** The button's [onClick]: [setIsDark((v) => !v)], after which the effect
    runs because [isDark] changed. *)
Definition toggle (st : State) : completion State :=
  commit (negb (isDark st)) (window st).

Fixpoint toggles (n : nat) (st : State) : completion State :=
  match n with
  | O => Normal st
  | S n' =>
      match toggle st with
      | Normal st' => toggles n' st'
      | Throw e => Throw e
      end
  end.

(** A later page load: the storage survives, the root element's classes
    are those of the static document again, and the preferred colour
    scheme is whatever the environment reports then. *)
Definition reload (st : State) (classes : list string) (pref : option bool) : Browser :=
  mkBrowser classes (localStorage (window st)) pref.

(** The string the effect stores for a mode. *)
Definition modeName (dark : bool) : string := if dark then "dark" else "light".

(** The stored theme value of a window, if storage can be read. *)
Definition storedTheme (w : Browser) : option string :=
  store ← localStorage w; store !! "theme".

End Theme.

(** ** The [IntersectionObserver] effect of [App] *)

Module Observer.
Import JS.
Local Open Scope js_scope.

(** An [HTMLElement], as far as the effect inspects it. *)
Record Element : Type := mkElement {
  tagName : string;                  (* upper case, as the DOM reports it *)
  attributes : gmap string string;
  classList : list string
}.

Definition hasAttribute (name : string) (el : Element) : bool :=
  bool_decide (is_Some (attributes el !! name)).

(** [el.id] reflects the [id] attribute and is [''] without one. *)
Definition elementId (el : Element) : string :=
  default "" (attributes el !! "id").

(** An [IntersectionObserverEntry]; [target] is a reference into the
    document's elements. A ratio is a finite double in [0, 1], hence a
    rational, and [0.25] is the double [1/4] exactly. *)
Record Entry : Type := mkEntry {
  target : nat;
  isIntersecting : bool;
  intersectionRatio : Q
}.

(** [x > y] on ratios. *)
Definition Qgtb (x y : Q) : bool := negb (Qle_bool x y).

(** The document, the [active] state of [App], the observers created so far
    (each with the targets it observes) and [observerRef.current]. *)
Record Page : Type := mkPage {
  elements : list Element;
  active : string;
  observers : list (list nat);
  observerRef : option nat;
  (** whether the global [IntersectionObserver] is defined *)
  hasIntersectionObserver : bool
}.

Definition setElements (els : list Element) (p : Page) : Page :=
  mkPage els (active p) (observers p) (observerRef p) (hasIntersectionObserver p).

Definition setActive (s : string) (p : Page) : Page :=
  mkPage (elements p) s (observers p) (observerRef p) (hasIntersectionObserver p).

Definition setObservers (os : list (list nat)) (p : Page) : Page :=
  mkPage (elements p) (active p) os (observerRef p) (hasIntersectionObserver p).

Definition setObserverRef (r : option nat) (p : Page) : Page :=
  mkPage (elements p) (active p) (observers p) r (hasIntersectionObserver p).

(** *** The callback *)

(** [target.classList.add(tok)] *)
Definition classList_add (tok : string) (el : Element) : Element :=
  mkElement (tagName el) (attributes el) (tokens_add tok (classList el)).

(** The body of [entries.forEach((entry) => ...)]. An entry's target is a
    live element; a reference outside the document changes nothing. *)
Definition onEntry (entry : Entry) (p : Page) : Page :=
  match elements p !! target entry with
  | None => p
  | Some el =>
      let p1 :=
        if hasAttribute "data-reveal" el then
          if isIntersecting entry
          then setElements (<[target entry := classList_add "show" el]> (elements p)) p
          else p
        else p in
      if String.eqb (tagName el) "SECTION" && truthy (Some (elementId el)) then
        if isIntersecting entry && Qgtb (intersectionRatio entry) (1 # 4)
        then setActive (elementId el) p1
        else p1
      else p1
  end.

(** The observer callback on one batch of entries, in delivery order. *)
Definition callback (entries : list Entry) (p : Page) : Page :=
  fold_left (fun q entry => onEntry entry q) entries p.

(** A sequence of batches, one callback invocation each. *)
Definition deliver (batches : list (list Entry)) (p : Page) : Page :=
  fold_left (fun q entries => callback entries q) batches p.

(** *** Attaching *)

Fixpoint selectFrom (i : nat) (sel : Element -> bool) (els : list Element) : list nat :=
  match els with
  | [] => []
  | el :: els' =>
      if sel el then i :: selectFrom (S i) sel els' else selectFrom (S i) sel els'
  end.

(** [Array.from(document.querySelectorAll(sel))], in document order. *)
Definition querySelectorAll (sel : Element -> bool) : M Page (list nat) :=
  fun p => (Normal (selectFrom 0 sel (elements p)), p).

(** The selector [section[id]]. *)
Definition sel_section_id (el : Element) : bool :=
  String.eqb (tagName el) "SECTION" && hasAttribute "id" el.

(** The selector [[data-reveal]]. *)
Definition sel_data_reveal (el : Element) : bool :=
  hasAttribute "data-reveal" el.

(** [o.disconnect()] *)
Definition disconnect (o : nat) : M Page unit :=
  modify (fun p => setObservers (<[o := []]> (observers p)) p).

(** [observerRef.current?.disconnect()] *)
Definition disconnectCurrent : M Page unit :=
  p <- get ;;
  match observerRef p with
  | Some o => disconnect o
  | None => ret tt
  end.

(** [new IntersectionObserver(callback, { threshold: [0.1, 0.25, 0.5] })] *)
Definition newIntersectionObserver : M Page nat :=
  fun p =>
    if hasIntersectionObserver p
    then (Normal (length (observers p)), setObservers (observers p ++ [[]])%list p)
    else (Throw ReferenceError, p).

(** [o.observe(t)] *)
Definition observe (o t : nat) : M Page unit :=
  modify (fun p =>
    setObservers (alter (fun ts : list nat => if bool_decide (t ∈ ts) then ts else (ts ++ [t])%list) o
                        (observers p)) p).

(** The body of the mount effect; the observer it returns is the one the
    cleanup disconnects. *)
Definition attach : M Page nat :=
  sections <- querySelectorAll sel_section_id ;;
  revealEls <- querySelectorAll sel_data_reveal ;;
  disconnectCurrent ;;;
  observer <- newIntersectionObserver ;;
  forEach sections (observe observer) ;;;
  forEach revealEls (observe observer) ;;;
  modify (setObserverRef (Some observer)) ;;;
  ret observer.

(** The cleanup [() => observer.disconnect()]. *)
Definition detach (observer : nat) : M Page unit := disconnect observer.

(** Whether an element carries the [show] class. *)
Definition shown (el : Element) : Prop := "show" ∈ classList el.

End Observer.

(** An invariant of the hook: the root element carries [dark] exactly in
    dark mode, and storage holds the name of the current mode. *)
Definition consistent (st : Theme.State) : Prop :=
  ("dark" ∈ Theme.rootClassList (Theme.window st) ↔ Theme.isDark st = true) ∧
  Theme.storedTheme (Theme.window st) = Some (Theme.modeName (Theme.isDark st)).

(** One document grows into another when the elements are the same ones,
    with the tag and attributes they had, and have lost no class. *)
Definition grows (els els' : list Observer.Element) : Prop :=
  length els' = length els ∧
  ∀ (i : nat) (el : Observer.Element), els !! i = Some el →
    ∃ el', els' !! i = Some el' ∧
      Observer.tagName el' = Observer.tagName el ∧
      Observer.attributes el' = Observer.attributes el ∧
      ∀ c : string, c ∈ Observer.classList el → c ∈ Observer.classList el'.

(** An entry qualifies section [s]: its target is a [SECTION] element with
    the non-empty id [s], it is intersecting, and more than a quarter of the
    target is visible. *)
Definition qualifying (els : list Observer.Element) (e : Observer.Entry) (s : string) : Prop :=
  ∃ el, els !! Observer.target e = Some el ∧
    Observer.tagName el = "SECTION" ∧
    Observer.elementId el = s ∧ s ≠ "" ∧
    Observer.isIntersecting e = true ∧
    Qlt (1 # 4) (Observer.intersectionRatio e).

(** ** What [App] renders from its state *)

Module Render.

(** The values of the type [SectionId]. *)
Definition SectionIds : list string :=
  ["hero"; "about"; "skills"; "projects"; "contact"].

(** The [className] of a navigation link to section [id]. *)
Definition navLinkClass (id active : string) : string :=
  "text-sm font-medium hover:text-zinc-900 dark:hover:text-white " ++
  (if String.eqb active id then "text-zinc-900 dark:text-white"
   else "text-zinc-600 dark:text-zinc-300").

(** The [className] of the bar under a navigation link. *)
Definition navUnderlineClass (id active : string) : string :=
  "block h-0.5 rounded bg-indigo-600 transition-all " ++
  (if String.eqb active id then "w-full" else "w-0").

Record NavItem : Type := mkNavItem {
  href : string;
  linkClass : string;
  label : string;
  underlineClass : string
}.

Definition navItem (id label active : string) : NavItem :=
  mkNavItem ("#" ++ id) (navLinkClass id active) label (navUnderlineClass id active).

(** The four links of the [nav] element, in document order. *)
Definition nav (active : string) : list NavItem :=
  [navItem "about" "Sobre mí" active;
   navItem "skills" "Habilidades" active;
   navItem "projects" "Proyectos" active;
   navItem "contact" "Contacto" active].

(** The class names of a [className] string: its maximal runs of characters
    other than the space. *)
Fixpoint classTokensFrom (cur : string) (s : string) : list string :=
  match s with
  | EmptyString => if String.eqb cur "" then [] else [cur]
  | String c s' =>
      if Ascii.eqb c " "%char
      then (if String.eqb cur "" then [] else [cur]) ++ classTokensFrom "" s'
      else classTokensFrom (cur ++ String c EmptyString) s'
  end%list.

Definition classTokens (s : string) : list string := classTokensFrom "" s.

(** A navigation link is highlighted when its bar has its full width. *)
Definition highlighted (item : NavItem) : bool :=
  bool_decide ("w-full" ∈ classTokens (underlineClass item)).

(** A navigation link is emphasised when its text has the strong colour. *)
Definition emphasised (item : NavItem) : bool :=
  bool_decide ("text-zinc-900" ∈ classTokens (linkClass item)).

(** The [ProjectCard] component, as the element the observer sees. *)
Definition ProjectCard (title description stack : string) : Observer.Element :=
  Observer.mkElement "ARTICLE" {["data-reveal" := ""]}
    (classTokens
       "rounded-2xl border border-zinc-200 dark:border-zinc-800 p-5 hover:border-indigo-300 dark:hover:border-indigo-600 transition-colors reveal").

(** The elements of [App]'s markup that are sections or carry
    [data-reveal], in document order. *)
Definition observedMarkup : list Observer.Element :=
  [Observer.mkElement "SECTION" {["id" := "hero"]}
     (classTokens "border-b border-zinc-200/60 dark:border-zinc-800/60");
   Observer.mkElement "DIV" {["data-reveal" := ""]} (classTokens "reveal");
   Observer.mkElement "DIV" {["data-reveal" := ""]}
     (classTokens "md:justify-self-end reveal");
   Observer.mkElement "SECTION" {["id" := "about"]}
     (classTokens "mx-auto max-w-6xl px-4 py-16 scroll-mt-24");
   Observer.mkElement "P" {["data-reveal" := ""]}
     (classTokens "mt-3 text-zinc-600 dark:text-zinc-300 reveal");
   Observer.mkElement "SECTION" {["id" := "skills"]}
     (classTokens "mx-auto max-w-6xl px-4 py-16 scroll-mt-24");
   Observer.mkElement "DIV" {["data-reveal" := ""]}
     (classTokens "rounded-xl border border-zinc-200 dark:border-zinc-800 p-4 reveal");
   Observer.mkElement "DIV" {["data-reveal" := ""]}
     (classTokens "rounded-xl border border-zinc-200 dark:border-zinc-800 p-4 reveal");
   Observer.mkElement "DIV" {["data-reveal" := ""]}
     (classTokens "rounded-xl border border-zinc-200 dark:border-zinc-800 p-4 reveal");
   Observer.mkElement "SECTION" {["id" := "projects"]}
     (classTokens "mx-auto max-w-6xl px-4 py-16 scroll-mt-24");
   ProjectCard "Landing Page"
     "Página de presentación rápida y moderna con performance optimizada."
     "React, Tailwind";
   ProjectCard "E‑commerce"
     "Catálogo, carrito y checkout; enfoque en UX y mantenibilidad."
     "React, Node, DB";
   ProjectCard "Inventario"
     "Gestión de inventarios sin ventas; roles y reportes básicos."
     "React, API REST, SQL";
   Observer.mkElement "SECTION" {["id" := "contact"]}
     (classTokens "mx-auto max-w-6xl px-4 py-16 scroll-mt-24")].

(** The page [App] starts from: nothing observed yet, [hero] active. *)
Definition initialPage (supportsObserver : bool) : Observer.Page :=
  Observer.mkPage observedMarkup "hero" [] None supportsObserver.

End Render.

(** ** Predicates on the observer's state *)

(** [o.observe(t)] on the target list of an observer. *)
Definition addTarget (ts : list nat) (t : nat) : list nat :=
  if bool_decide (t ∈ ts) then ts else (ts ++ [t])%list.

(** Only the observer held in [observerRef] may still observe elements. *)
Definition onlyCurrentObserves (p : Observer.Page) : Prop :=
  ∀ (o : nat) (ts : list nat),
    Observer.observers p !! o = Some ts → ts ≠ [] → Observer.observerRef p = Some o.

(** The element an entry leaves at its own target. *)
Definition revealed (e : Observer.Entry) (el : Observer.Element) : Observer.Element :=
  if Observer.hasAttribute "data-reveal" el && Observer.isIntersecting e
  then Observer.classList_add "show" el
  else el.

(** The observers left by [observerRef.current?.disconnect()]. *)
Definition afterDisconnect (p : Observer.Page) : list (list nat) :=
  match Observer.observerRef p with
  | Some o => <[o := []]> (Observer.observers p)
  | None => Observer.observers p
  end.

(** ** Facts about class lists *)

Section Tokens.
Import JS.

Lemma elem_of_tokens_add (c tok : string) (l : list string) :
  c ∈ tokens_add tok l ↔ c = tok ∨ c ∈ l.
Proof.
  unfold tokens_add. case_bool_decide as Hin.
  - split; [intros ?; by right |]. intros [Heq | ?]; [by subst | done].
  - rewrite elem_of_app, list_elem_of_singleton. tauto.
Qed.

Lemma elem_of_tokens_remove (c tok : string) (l : list string) :
  c ∈ tokens_remove tok l ↔ c ≠ tok ∧ c ∈ l.
Proof. unfold tokens_remove. by rewrite list_elem_of_filter. Qed.

Lemma tokens_add_idem (tok : string) (l : list string) :
  tokens_add tok (tokens_add tok l) = tokens_add tok l.
Proof.
  unfold tokens_add at 1. rewrite bool_decide_true; [done |].
  apply elem_of_tokens_add. by left.
Qed.

Lemma tokens_remove_absent (tok : string) (l : list string) :
  tok ∉ l → tokens_remove tok l = l.
Proof.
  unfold tokens_remove. induction l as [| x l IH]; intros Hnin; [done |].
  apply not_elem_of_cons in Hnin as [Hne Hnin].
  rewrite filter_cons_True by congruence. by rewrite IH.
Qed.

Lemma tokens_remove_idem (tok : string) (l : list string) :
  tokens_remove tok (tokens_remove tok l) = tokens_remove tok l.
Proof.
  apply tokens_remove_absent. rewrite elem_of_tokens_remove. tauto.
Qed.

Lemma tokens_remove_add (tok : string) (l : list string) :
  tok ∉ l → tokens_remove tok (tokens_add tok l) = l.
Proof.
  intros Hnin. unfold tokens_add. rewrite bool_decide_false by done.
  unfold tokens_remove. rewrite filter_app.
  fold (tokens_remove tok l). rewrite tokens_remove_absent by done.
  rewrite filter_cons_False by tauto. by rewrite filter_nil, app_nil_r.
Qed.

End Tokens.

(** ** The theme preference *)

Section ThemeFacts.
Import JS Theme.

Implicit Types (cl : list string) (store : gmap string string)
  (mm : option bool) (v : bool).

(** With storage accessible the effect completes, and this is the window
    it leaves. *)
Lemma themeEffect_run v cl store mm :
  themeEffect v (mkBrowser cl (Some store) mm) =
  (Normal tt,
   mkBrowser (if v then tokens_add "dark" cl else tokens_remove "dark" cl)
             (Some (<["theme" := modeName v]> store)) mm).
Proof. by destruct v. Qed.

Lemma commit_run v cl store mm :
  commit v (mkBrowser cl (Some store) mm) =
  Normal (mkState v
    (mkBrowser (if v then tokens_add "dark" cl else tokens_remove "dark" cl)
               (Some (<["theme" := modeName v]> store)) mm)).
Proof. unfold commit. by rewrite themeEffect_run. Qed.

Lemma toggle_run v cl store mm :
  toggle (mkState v (mkBrowser cl (Some store) mm)) =
  Normal (mkState (negb v)
    (mkBrowser (if negb v then tokens_add "dark" cl else tokens_remove "dark" cl)
               (Some (<["theme" := modeName (negb v)]> store)) mm)).
Proof. unfold toggle. cbn [isDark window]. apply commit_run. Qed.

(** Without access to storage the effect raises, after it has updated the
    root element. *)
Lemma themeEffect_denied v cl mm :
  themeEffect v (mkBrowser cl None mm) =
  (Throw SecurityError,
   mkBrowser (if v then tokens_add "dark" cl else tokens_remove "dark" cl) None mm).
Proof. by destruct v. Qed.

Lemma initialIsDark_stored cl store mm (s : string) :
  store !! "theme" = Some s → s ≠ "" →
  initialIsDark (Some (mkBrowser cl (Some store) mm)) = Normal (String.eqb s "dark").
Proof.
  intros Hs Hne. unfold initialIsDark, readPreference, bind, getItem. simpl.
  rewrite Hs. simpl.
  destruct (String.eqb_spec s "") as [-> | _]; [done | reflexivity].
Qed.

Lemma initialIsDark_mode cl store mm v :
  store !! "theme" = Some (modeName v) →
  initialIsDark (Some (mkBrowser cl (Some store) mm)) = Normal v.
Proof.
  intros Hs. rewrite (initialIsDark_stored _ _ _ _ Hs); by destruct v.
Qed.

Lemma initialIsDark_falsy cl store mm :
  truthy (store !! "theme") = false →
  initialIsDark (Some (mkBrowser cl (Some store) mm)) =
  match mm with Some pref => Normal pref | None => Throw TypeError end.
Proof.
  intros Hf. unfold initialIsDark, readPreference, bind, getItem. simpl.
  rewrite Hf. unfold matchMedia_matches. simpl. by destruct mm.
Qed.

Lemma consistent_commit v cl store mm st :
  commit v (mkBrowser cl (Some store) mm) = Normal st →
  consistent st ∧ isDark st = v ∧ prefersDark (window st) = mm ∧
  ∃ store', localStorage (window st) = Some store'.
Proof.
  rewrite commit_run. intros [= <-]. unfold consistent, storedTheme. simpl.
  rewrite lookup_insert_eq. split_and!; [| done | done | done | by eexists].
  destruct v.
  - rewrite elem_of_tokens_add. split; [done | by left].
  - rewrite elem_of_tokens_remove. split; [by intros [? _] | done].
Qed.

(** From a window with accessible storage every run of toggles completes,
    ends in the mode flipped that many times, and leaves the state
    consistent once at least one effect has run. *)
Lemma toggles_run n v cl store mm :
  ∃ cl' store',
    toggles n (mkState v (mkBrowser cl (Some store) mm)) =
    Normal (mkState (Nat.iter n negb v) (mkBrowser cl' (Some store') mm)) ∧
    (0 < n → consistent (mkState (Nat.iter n negb v) (mkBrowser cl' (Some store') mm))).
Proof.
  revert v cl store. induction n as [| n IH]; intros v cl store.
  - exists cl, store. split; [done | lia].
  - cbn [toggles]. rewrite toggle_run.
    destruct (IH (negb v) (if negb v then tokens_add "dark" cl else tokens_remove "dark" cl)
                (<["theme" := modeName (negb v)]> store)) as (cl' & store' & Hrun & Hinv).
    exists cl', store'. rewrite Hrun.
    replace (Nat.iter (S n) negb v) with (Nat.iter n negb (negb v))
      by (symmetry; apply Nat.iter_succ_r).
    split; [done |]. intros _. destruct n as [| n'].
    + injection Hrun as <- <-. cbn [Nat.iter].
      eapply consistent_commit, commit_run.
    + apply Hinv. lia.
Qed.

End ThemeFacts.

Section ThemeClaims.
Import JS Theme.

Implicit Types (cl : list string) (store : gmap string string)
  (mm : option bool) (v : bool).

(** C1, as stated, fails: the stored value ["blue"] is neither ["light"]
    nor ["dark"], yet with an environment that prefers dark the initial
    theme is light, whereas with no stored value it is dark. The malformed
    value is mapped to light directly instead of being treated as absent. *)
Lemma malformed_value_not_treated_as_absent :
  "blue" ≠ "light" ∧ "blue" ≠ "dark" ∧
  initialIsDark (Some (mkBrowser [] (Some {["theme" := "blue"]}) (Some true)))
    = Normal false ∧
  initialIsDark (Some (mkBrowser [] (Some ∅) (Some true))) = Normal true.
Proof. split_and!; [done | done | by vm_compute | by vm_compute]. Qed.

(** C1, amended: for a stored theme value that is not one of the two
    recognized modes, the initial theme is light whatever the environment
    prefers when the value is a non-empty string; only the empty string is
    treated like an absent value and resolved from the environment's
    preferred colour scheme. *)
Theorem malformed_value_resolution cl store mm (s : string) :
  s ≠ "light" → s ≠ "dark" →
  (s ≠ "" →
     initialIsDark (Some (mkBrowser cl (Some (<["theme" := s]> store)) mm))
       = Normal false) ∧
  (s = "" →
     initialIsDark (Some (mkBrowser cl (Some (<["theme" := s]> store)) mm))
       = initialIsDark (Some (mkBrowser cl (Some (delete "theme" store)) mm)) ∧
     initialIsDark (Some (mkBrowser cl (Some (<["theme" := s]> store)) mm))
       = match mm with Some pref => Normal pref | None => Throw TypeError end).
Proof.
  intros _ Hdark. split.
  - intros Hne.
    rewrite (initialIsDark_stored _ _ _ s) by (by rewrite ?lookup_insert_eq).
    by destruct (String.eqb_spec s "dark").
  - intros ->.
    rewrite !initialIsDark_falsy; [done | |].
    + by rewrite lookup_delete_eq.
    + by rewrite lookup_insert_eq.
Qed.

Lemma malformed_value_resolution_witness :
  initialIsDark (Some (mkBrowser ["dark"] (Some (<["theme" := "system"]> ∅)) (Some true)))
    = Normal false.
Proof.
  apply (malformed_value_resolution ["dark"] ∅ (Some true) "system");
    discriminate.
Defined.

(** C2, as stated, fails: in a window whose storage cannot be accessed,
    neither the initial resolution nor the effect degrades to light; both
    complete abruptly with the storage exception. *)
Lemma storage_failure_propagates :
  initialIsDark (Some (mkBrowser [] None (Some false))) = Throw SecurityError ∧
  fst (themeEffect false (mkBrowser [] None (Some false))) = Throw SecurityError.
Proof. split; reflexivity. Qed.

(** C2, amended: only the absence of a window degrades silently, the
    initial theme then being light without storage or the environment
    being touched. In a window, a failing storage access propagates from
    the initial resolution and from the theme effect, and a missing
    [matchMedia] propagates from the initial resolution whenever no usable
    value is stored; with a stored value [matchMedia] is not called. *)
Theorem failure_handling :
  initialIsDark None = Normal false ∧
  (∀ cl mm, initialIsDark (Some (mkBrowser cl None mm)) = Throw SecurityError) ∧
  (∀ v cl mm, fst (themeEffect v (mkBrowser cl None mm)) = Throw SecurityError) ∧
  (∀ cl store,
     initialIsDark (Some (mkBrowser cl (Some (delete "theme" store)) None))
       = Throw TypeError) ∧
  (∀ v cl store,
     initialIsDark (Some (mkBrowser cl (Some (<["theme" := modeName v]> store)) None))
       = Normal v).
Proof.
  split_and!; [done | done | | |].
  - intros v cl mm. by rewrite themeEffect_denied.
  - intros cl store. rewrite initialIsDark_falsy; [done |].
    by rewrite lookup_delete_eq.
  - intros v cl store. apply initialIsDark_mode. by rewrite lookup_insert_eq.
Qed.

(** C4: after any non-empty sequence of toggles, started in either mode in
    a window with working storage, storage holds the name of the mode
    reached, and a fresh initial resolution on that storage returns this
    mode whatever the environment's preferred colour scheme is then (also
    when the environment cannot be queried at all). *)
Theorem stored_choice_overrides_environment v cl store mm (n : nat) :
  ∃ st,
    toggles (S n) (mkState v (mkBrowser cl (Some store) mm)) = Normal st ∧
    isDark st = Nat.iter (S n) negb v ∧
    storedTheme (window st) = Some (modeName (isDark st)) ∧
    ∀ cl' pref, initialIsDark (Some (reload st cl' pref)) = Normal (isDark st).
Proof.
  destruct (toggles_run (S n) v cl store mm) as (cl1 & store1 & Hrun & Hinv).
  eexists. split; [exact Hrun |].
  destruct Hinv as [_ Hstored]; [lia |].
  split_and!; [done | done |].
  intros cl' pref. unfold reload. cbn [window localStorage isDark] in *.
  apply initialIsDark_mode. exact Hstored.
Qed.

(** C7: applying a mode in a window with working storage completes, and a
    fresh initial resolution on the storage it leaves returns that mode,
    for both modes and every environment. *)
Theorem apply_then_resolve v cl store mm :
  ∃ w,
    themeEffect v (mkBrowser cl (Some store) mm) = (Normal tt, w) ∧
    storedTheme w = Some (modeName v) ∧
    ∀ cl' pref,
      initialIsDark (Some (mkBrowser cl' (localStorage w) pref)) = Normal v.
Proof.
  eexists. split; [apply themeEffect_run |].
  unfold storedTheme. cbn [localStorage option_bind mbind].
  split; [by rewrite lookup_insert_eq |].
  intros cl' pref. apply initialIsDark_mode. by rewrite lookup_insert_eq.
Qed.

(** C8: in a window with working storage and a colour-scheme query the
    first render completes; and whenever the first render completes, then
    right after it and after every further toggle the root element carries
    the [dark] class exactly when the mode is dark and storage holds the
    name of the current mode. *)
Theorem marker_and_storage_follow_mode :
  (∀ cl store pref, ∃ st, mount (mkBrowser cl (Some store) (Some pref)) = Normal st) ∧
  (∀ w st, mount w = Normal st →
     ∀ n : nat, ∃ st', toggles n st = Normal st' ∧ consistent st').
Proof.
  split.
  - intros cl store pref. unfold mount.
    destruct (initialIsDark _) as [v | e] eqn:Hinit.
    + rewrite commit_run. by eexists.
    + exfalso. revert Hinit.
      destruct (decide (truthy (store !! "theme") = true)) as [Ht | Hf].
      * destruct (store !! "theme") as [s |] eqn:Hs; [| done].
        rewrite (initialIsDark_stored _ _ _ s Hs); [done |].
        intros ->. done.
      * apply not_true_is_false in Hf. by rewrite initialIsDark_falsy.
  - intros [cl [store |] mm] st Hmount n; unfold mount in Hmount.
    + destruct (initialIsDark _) as [v | e]; [| done].
      pose proof (consistent_commit _ _ _ _ _ Hmount) as (Hc & _ & _ & _).
      rewrite commit_run in Hmount. injection Hmount as <-.
      destruct (toggles_run n v
                  (if v then tokens_add "dark" cl else tokens_remove "dark" cl)
                  (<["theme" := modeName v]> store) mm)
        as (cl' & store' & Hrun & Hinv).
      eexists. split; [exact Hrun |].
      destruct n as [| n]; [| apply Hinv; lia].
      cbn [toggles] in Hrun. injection Hrun as <- <-. exact Hc.
    + done.
Qed.

Lemma marker_and_storage_follow_mode_witness :
  ∃ st st',
    mount (mkBrowser ["no-js"] (Some ∅) (Some true)) = Normal st ∧
    toggles 3 st = Normal st' ∧ consistent st'.
Proof.
  destruct (proj1 marker_and_storage_follow_mode ["no-js"] ∅ true) as [st Hst].
  destruct (proj2 marker_and_storage_follow_mode _ st Hst 3) as [st' [Hrun Hc]].
  exists st, st'. split_and!; [exact Hst | exact Hrun | exact Hc].
Defined.

(** C9: running the theme effect a second time for the same mode leaves
    exactly the window (root class list and storage) that the first run
    left, and completes the same way; for both modes and every window. *)
Theorem themeEffect_idempotent v (w : Browser) :
  themeEffect v (snd (themeEffect v w)) = themeEffect v w.
Proof.
  destruct w as [cl [store |] mm].
  - rewrite themeEffect_run. cbn [snd]. rewrite themeEffect_run.
    rewrite insert_insert_eq.
    destruct v; by rewrite ?tokens_add_idem, ?tokens_remove_idem.
  - rewrite themeEffect_denied. cbn [snd]. rewrite themeEffect_denied.
    destruct v; by rewrite ?tokens_add_idem, ?tokens_remove_idem.
Qed.

(** C10, as stated, fails: from dark mode with the [dark] class set and
    nothing stored (storage cleared while the page is open) two toggles
    return to dark mode but leave ["dark"] stored; and from light mode with
    a stray [dark] class two toggles leave the class removed. *)
Lemma double_toggle_not_identity :
  (∃ st2,
     toggles 2 (mkState true (mkBrowser ["dark"] (Some ∅) (Some false))) = Normal st2 ∧
     isDark st2 = true ∧
     storedTheme (mkBrowser ["dark"] (Some ∅) (Some false)) = None ∧
     storedTheme (window st2) = Some "dark") ∧
  (∃ st2,
     toggles 2 (mkState false
       (mkBrowser ["dark"] (Some {["theme" := "light"]}) (Some false))) = Normal st2 ∧
     isDark st2 = false ∧
     "dark" ∈ ["dark"] ∧
     "dark" ∉ rootClassList (window st2)).
Proof.
  split.
  - eexists. split; [reflexivity |]. split_and!; [done | done |].
    unfold storedTheme. cbn. by rewrite lookup_insert_eq.
  - eexists. split; [reflexivity |]. split_and!; [done | | ].
    + apply list_elem_of_here.
    + cbn. vm_compute. apply not_elem_of_nil.
Qed.

(** C10, amended: from either mode in a window with working storage, two
    toggles complete, restore the mode and leave a consistent state; they
    leave the stored value and the root element's classes (as a set) as
    they were before the first toggle provided these agreed with the mode
    then, as they do at every point after the first render. *)
Theorem double_toggle_restores v cl store mm :
  ∃ st2,
    toggles 2 (mkState v (mkBrowser cl (Some store) mm)) = Normal st2 ∧
    isDark st2 = v ∧
    prefersDark (window st2) = mm ∧
    consistent st2 ∧
    (consistent (mkState v (mkBrowser cl (Some store) mm)) →
       storedTheme (window st2) = store !! "theme" ∧
       ∀ c, c ∈ rootClassList (window st2) ↔ c ∈ cl).
Proof.
  destruct (toggles_run 2 v cl store mm) as (cl2 & store2 & Hrun & Hinv).
  eexists. split; [exact Hrun |].
  change (Nat.iter 2 negb v) with (negb (negb v)) in *.
  rewrite negb_involutive in *.
  split_and!; [done | done | apply Hinv; lia |].
  intros [Hcls Hst]. cbn [isDark window rootClassList] in *.
  cbn [toggles] in Hrun. rewrite toggle_run in Hrun. cbv beta iota in Hrun.
  rewrite toggle_run, negb_involutive in Hrun.
  injection Hrun as <- <-.
  split.
  - unfold storedTheme in *. cbn in *. by rewrite lookup_insert_eq, Hst.
  - intros c. destruct v; cbn [negb].
    + rewrite elem_of_tokens_add, elem_of_tokens_remove.
      pose proof (proj2 Hcls eq_refl) as Hin.
      destruct (decide (c = "dark")) as [-> | Hne]; tauto.
    + rewrite tokens_remove_add; [done |].
      intros Hin. by apply Hcls in Hin.
Qed.

Lemma double_toggle_restores_witness :
  ∃ st2,
    toggles 2 (mkState true
      (mkBrowser ["dark"; "js"] (Some {["theme" := "dark"]}) (Some false))) = Normal st2 ∧
    isDark st2 = true ∧
    storedTheme (window st2) = Some "dark" ∧
    ("js" ∈ rootClassList (window st2) ↔ "js" ∈ ["dark"; "js"]).
Proof.
  destruct (double_toggle_restores true ["dark"; "js"] {["theme" := "dark"]} (Some false))
    as (st2 & Hrun & Hmode & _ & _ & Hsame).
  exists st2. destruct Hsame as [Hst Hcls].
  - split; [| reflexivity]. split; [intros _; reflexivity |].
    intros _. apply list_elem_of_here.
  - split_and!; [exact Hrun | exact Hmode | | exact (Hcls "js")].
    rewrite Hst. reflexivity.
Defined.

End ThemeClaims.

(** ** The viewport observer *)

Section ObserverFacts.
Import JS Observer.

Implicit Types (p : Page) (e : Entry) (els : list Element) (el : Element).

Lemma Qgtb_true (x y : Q) : Qgtb x y = true ↔ Qlt y x.
Proof.
  unfold Qgtb. rewrite negb_true_iff, <- not_true_iff_false, Qle_bool_iff.
  split; [apply Qnot_le_lt | apply Qlt_not_le].
Qed.

Lemma grows_refl els : grows els els.
Proof. split; [done |]. intros i el Hi. by exists el. Qed.

Lemma grows_trans els1 els2 els3 :
  grows els1 els2 → grows els2 els3 → grows els1 els3.
Proof.
  intros [Hl12 H12] [Hl23 H23]. split; [congruence |].
  intros i el1 Hi.
  destruct (H12 i el1 Hi) as (el2 & Hi2 & Htag2 & Hattr2 & Hcls2).
  destruct (H23 i el2 Hi2) as (el3 & Hi3 & Htag3 & Hattr3 & Hcls3).
  exists el3. split_and!; [done | congruence | congruence | auto].
Qed.

(** Adding a class to one element grows the document. *)
Lemma grows_classList_add els (i : nat) el (tok : string) :
  els !! i = Some el → grows els (<[i := classList_add tok el]> els).
Proof.
  intros Hi. split; [apply length_insert |].
  intros j el0 Hj. destruct (decide (j = i)) as [-> | Hne].
  - rewrite Hi in Hj. injection Hj as <-.
    exists (classList_add tok el).
    rewrite list_lookup_insert_eq by (by eapply lookup_lt_Some).
    split_and!; [done | done | done |].
    intros c Hc. cbn. apply elem_of_tokens_add. by right.
  - exists el0. by rewrite list_lookup_insert_ne.
Qed.

Lemma elements_setActive (s : string) p : elements (setActive s p) = elements p.
Proof. done. Qed.

Lemma onEntry_grows e p : grows (elements p) (elements (onEntry e p)).
Proof.
  unfold onEntry. destruct (elements p !! target e) as [el |] eqn:Hel;
    [| apply grows_refl].
  repeat case_match; rewrite ?elements_setActive; cbn [elements setElements];
    first [apply grows_refl | by apply grows_classList_add].
Qed.

Lemma callback_grows (es : list Entry) p :
  grows (elements p) (elements (callback es p)).
Proof.
  revert p. induction es as [| e es IH]; intros p; [apply grows_refl |].
  cbn [callback fold_left]. eapply grows_trans; [apply onEntry_grows | apply IH].
Qed.

Lemma deliver_grows (batches : list (list Entry)) p :
  grows (elements p) (elements (deliver batches p)).
Proof.
  revert p. induction batches as [| es batches IH]; intros p; [apply grows_refl |].
  cbn [deliver fold_left]. eapply grows_trans; [apply callback_grows | apply IH].
Qed.

(** Which section an entry qualifies depends on tags and attributes only,
    so it is the same in a grown document. *)
Lemma qualifying_grows els els' e (s : string) :
  grows els els' → qualifying els e s ↔ qualifying els' e s.
Proof.
  intros [Hlen Hg]. split.
  - intros (el & Hel & Htag & Hid & Hne & Hint & Hratio).
    destruct (Hg _ _ Hel) as (el' & Hel' & Htag' & Hattr' & _).
    exists el'. unfold elementId in *.
    split_and!; [done | congruence | by rewrite Hattr' | done | done | done].
  - intros (el' & Hel' & Htag & Hid & Hne & Hint & Hratio).
    destruct (els !! target e) as [el |] eqn:Hel.
    + destruct (Hg _ _ Hel) as (el2 & Hel2 & Htag2 & Hattr2 & _).
      rewrite Hel' in Hel2. injection Hel2 as <-.
      exists el. unfold elementId in *.
      split_and!; [done | congruence | by rewrite <- Hattr2 | done | done | done].
    + apply lookup_ge_None in Hel. apply lookup_lt_Some in Hel'. lia.
Qed.

Lemma active_onEntry_qualifying e p (s : string) :
  qualifying (elements p) e s → active (onEntry e p) = s.
Proof.
  intros (el & Hel & Htag & Hid & Hne & Hint & Hratio).
  unfold onEntry. rewrite Hel, Htag, Hint. cbn [String.eqb andb truthy].
  rewrite Hid. apply Qgtb_true in Hratio. rewrite Hratio.
  destruct (String.eqb_spec s "") as [-> | _]; [done |].
  cbn [negb andb]. by case_match.
Qed.

Lemma active_onEntry_other e p :
  (∀ s, ¬ qualifying (elements p) e s) → active (onEntry e p) = active p.
Proof.
  intros Hnq. unfold onEntry.
  destruct (elements p !! target e) as [el |] eqn:Hel; [| done].
  destruct (String.eqb_spec (tagName el) "SECTION") as [Htag | _];
    cbn [andb truthy]; [| by repeat case_match].
  destruct (String.eqb_spec (elementId el) "") as [Hid | Hid];
    cbn [negb]; [by repeat case_match |].
  destruct (isIntersecting e) eqn:Hint; cbn [andb]; [| by repeat case_match].
  destruct (Qgtb (intersectionRatio e) (1 # 4)) eqn:Hratio;
    [| by repeat case_match].
  exfalso. apply (Hnq (elementId el)). exists el.
  split_and!; [done | done | done | done | done | by apply Qgtb_true].
Qed.

Lemma callback_app (es1 es2 : list Entry) p :
  callback (es1 ++ es2)%list p = callback es2 (callback es1 p).
Proof. apply fold_left_app. Qed.

Lemma active_callback_none (es : list Entry) els p :
  grows els (elements p) →
  (∀ e s, e ∈ es → ¬ qualifying els e s) →
  active (callback es p) = active p.
Proof.
  revert p. induction es as [| e es IH]; intros p Hg Hnq; [done |].
  cbn [callback fold_left]. fold (callback es (onEntry e p)).
  rewrite IH.
  - apply active_onEntry_other. intros s Hq.
    apply (Hnq e s); [apply list_elem_of_here |].
    by apply (qualifying_grows els (elements p)).
  - eapply grows_trans; [exact Hg | apply onEntry_grows].
  - intros e' s He'. apply Hnq. by apply list_elem_of_further.
Qed.

End ObserverFacts.

Section AttachFacts.
Import JS Observer.

Lemma disconnectCurrent_run (p : Page) :
  ∃ p', disconnectCurrent p = (Normal tt, p') ∧
    elements p' = elements p ∧ active p' = active p ∧
    observerRef p' = observerRef p ∧
    hasIntersectionObserver p' = hasIntersectionObserver p ∧
    length (observers p') = length (observers p) ∧
    (observerRef p = None → p' = p).
Proof.
  unfold disconnectCurrent, bind, get.
  destruct (observerRef p) as [o |] eqn:Href.
  - eexists. split; [reflexivity |]. cbn. rewrite length_insert.
    split_and!; done.
  - exists p. split_and!; done.
Qed.

Lemma forEach_observe_run (o : nat) (ts : list nat) (p : Page) :
  ∃ p', forEach ts (observe o) p = (Normal tt, p') ∧
    elements p' = elements p ∧ active p' = active p ∧
    observerRef p' = observerRef p.
Proof.
  revert p. induction ts as [| t ts IH]; intros p; [by exists p |].
  cbn [forEach]. unfold bind at 1. unfold observe at 1, modify.
  destruct (IH (setObservers
    (alter (fun l : list nat => if bool_decide (t ∈ l) then l else (l ++ [t])%list) o
           (observers p)) p)) as (p' & Hrun & Hels & Hact & Href).
  exists p'. by rewrite Hrun.
Qed.

(** Where the host provides [IntersectionObserver], attaching completes
    and leaves the new observer in [observerRef]. *)
Lemma attach_supported (p : Page) :
  hasIntersectionObserver p = true →
  ∃ o p', attach p = (Normal o, p') ∧ observerRef p' = Some o ∧
    elements p' = elements p ∧ active p' = active p.
Proof.
  intros Hio. unfold attach, bind at 1 2, querySelectorAll.
  destruct (disconnectCurrent_run p) as (p1 & Hrun1 & Hels1 & Hact1 & _ & Hio1 & _).
  unfold bind at 1. rewrite Hrun1.
  unfold bind at 1. unfold newIntersectionObserver. rewrite Hio1, Hio.
  set (o := length (observers p1)).
  set (p2 := setObservers (observers p1 ++ [[]])%list p1).
  destruct (forEach_observe_run o (selectFrom 0 sel_section_id (elements p)) p2)
    as (p3 & Hrun3 & Hels3 & Hact3 & _).
  unfold bind at 1. rewrite Hrun3.
  destruct (forEach_observe_run o (selectFrom 0 sel_data_reveal (elements p)) p3)
    as (p4 & Hrun4 & Hels4 & Hact4 & _).
  unfold bind at 1. rewrite Hrun4.
  exists o, (setObserverRef (Some o) p4). split; [reflexivity |].
  subst p2. cbn in *. split_and!; [done | congruence | congruence].
Qed.

End AttachFacts.

Section ObserverClaims.
Import JS Observer.

Implicit Types (p : Page) (e : Entry) (els : list Element) (el : Element).

(** C3, as stated, fails: on a page with a section and a reveal target,
    in a host without [IntersectionObserver], attaching the observer
    throws. *)
Lemma attach_throws_without_IntersectionObserver :
  fst (attach (mkPage
    [mkElement "SECTION" {["id" := "hero"]} [];
     mkElement "DIV" {["data-reveal" := ""]} ["reveal"]]
    "hero" [] None false)) = Throw ReferenceError.
Proof. reflexivity. Qed.

(** C3, amended: if the host environment does not provide
    [IntersectionObserver], attaching the observer throws a
    [ReferenceError] when it constructs the observer. Until then it has set
    no section active, marked no reveal target shown (no element is
    changed at all) and created no observer; on a page that never had an
    observer the page state is left as it was. *)
Theorem attach_unsupported p :
  hasIntersectionObserver p = false →
  ∃ p', attach p = (Throw ReferenceError, p') ∧
    elements p' = elements p ∧ active p' = active p ∧
    observerRef p' = observerRef p ∧
    length (observers p') = length (observers p) ∧
    (observerRef p = None → p' = p).
Proof.
  intros Hio.
  destruct (disconnectCurrent_run p) as (p1 & Hrun1 & Hels & Hact & Href & Hio1 & Hlen & Hsame).
  exists p1. split; [| done].
  unfold attach, bind at 1 2, querySelectorAll.
  unfold bind at 1. rewrite Hrun1.
  unfold bind at 1. unfold newIntersectionObserver. by rewrite Hio1, Hio.
Qed.

Lemma attach_unsupported_witness :
  attach (mkPage
    [mkElement "SECTION" {["id" := "about"]} [];
     mkElement "DIV" {["data-reveal" := ""]} ["reveal"]]
    "hero" [] None false)
  = (Throw ReferenceError,
     mkPage
       [mkElement "SECTION" {["id" := "about"]} [];
        mkElement "DIV" {["data-reveal" := ""]} ["reveal"]]
       "hero" [] None false).
Proof.
  destruct (attach_unsupported (mkPage
    [mkElement "SECTION" {["id" := "about"]} [];
     mkElement "DIV" {["data-reveal" := ""]} ["reveal"]]
    "hero" [] None false) eq_refl) as (p' & Hrun & _ & _ & _ & _ & Hsame).
  rewrite Hrun. f_equal. apply Hsame. reflexivity.
Defined.

(** C5: an element that carries the [show] class still carries it, and is
    still the same element of the document, after any sequence of batches
    of visibility-change entries, whatever their targets, intersection
    flags and ratios; and an entry for an element already shown leaves
    every element as it was. *)
Theorem reveal_is_monotonic p (batches : list (list Entry)) (i : nat) el :
  elements p !! i = Some el → shown el →
  (∃ el', elements (deliver batches p) !! i = Some el' ∧ shown el' ∧
     tagName el' = tagName el ∧ attributes el' = attributes el) ∧
  (∀ e, target e = i → elements (onEntry e p) = elements p).
Proof.
  intros Hi Hshown. split.
  - destruct (deliver_grows batches p) as [_ Hg].
    destruct (Hg i el Hi) as (el' & Hi' & Htag & Hattr & Hcls).
    exists el'. split_and!; [done | by apply Hcls | done | done].
  - intros e <-. unfold onEntry. rewrite Hi.
    assert (classList_add "show" el = el) as Hsame.
    { destruct el as [tag attrs cls]. unfold classList_add, tokens_add. cbn.
      unfold shown in Hshown. cbn in Hshown. by rewrite bool_decide_true. }
    rewrite Hsame, list_insert_id by done.
    by repeat case_match.
Qed.

Lemma reveal_is_monotonic_witness :
  ∃ el',
    elements (deliver
      [[mkEntry 0 true (1 # 2)]; [mkEntry 0 false 0]; [mkEntry 0 true 1]]
      (mkPage [mkElement "DIV" {["data-reveal" := ""]} ["reveal"; "show"]]
              "hero" [[0]] (Some 0) true)) !! 0 = Some el' ∧
    shown el'.
Proof.
  destruct (reveal_is_monotonic
    (mkPage [mkElement "DIV" {["data-reveal" := ""]} ["reveal"; "show"]]
            "hero" [[0]] (Some 0) true)
    [[mkEntry 0 true (1 # 2)]; [mkEntry 0 false 0]; [mkEntry 0 true 1]]
    0 (mkElement "DIV" {["data-reveal" := ""]} ["reveal"; "show"]))
    as [(el' & Hel' & Hshown & _) _].
  - reflexivity.
  - unfold shown. cbn. apply list_elem_of_further, list_elem_of_here.
  - exists el'. split; [exact Hel' | exact Hshown].
Defined.

(** C6: for an entry whose target is a section with a non-empty id, the
    callback makes that section active if the entry is intersecting with a
    ratio above one quarter and leaves the active section alone otherwise;
    after a whole batch the active section is the one qualified by the last
    qualifying entry in delivery order, and is unchanged when no entry of
    the batch qualifies. *)
Theorem active_section_selection p (es : list Entry) :
  (∀ e el,
     elements p !! target e = Some el →
     tagName el = "SECTION" → elementId el ≠ "" →
     (isIntersecting e = true ∧ Qlt (1 # 4) (intersectionRatio e) →
        active (onEntry e p) = elementId el) ∧
     (¬ (isIntersecting e = true ∧ Qlt (1 # 4) (intersectionRatio e)) →
        active (onEntry e p) = active p)) ∧
  (∀ (pre post : list Entry) e (s : string),
     es = (pre ++ e :: post)%list →
     qualifying (elements p) e s →
     (∀ e' s', e' ∈ post → ¬ qualifying (elements p) e' s') →
     active (callback es p) = s) ∧
  ((∀ e s, e ∈ es → ¬ qualifying (elements p) e s) →
     active (callback es p) = active p).
Proof.
  split_and!.
  - intros e el Hel Htag Hid. split.
    + intros [Hint Hratio]. apply active_onEntry_qualifying.
      exists el. split_and!; done.
    + intros Hnot. apply active_onEntry_other.
      intros s (el' & Hel' & _ & _ & _ & Hint & Hratio). by apply Hnot.
  - intros pre post e s -> Hq Hpost.
    rewrite callback_app. cbn [callback fold_left].
    fold (callback pre p).
    fold (callback post (onEntry e (callback pre p))).
    pose proof (callback_grows pre p) as Hg.
    rewrite (active_callback_none post (elements p)).
    + apply active_onEntry_qualifying. by apply (qualifying_grows (elements p)).
    + eapply grows_trans; [exact Hg | apply onEntry_grows].
    + exact Hpost.
  - intros Hnone. apply (active_callback_none es (elements p)); [apply grows_refl | done].
Qed.

Lemma active_section_selection_witness :
  active (callback
    [mkEntry 0 true (1 # 2); mkEntry 1 true (3 # 10); mkEntry 0 true (1 # 5)]
    (mkPage
       [mkElement "SECTION" {["id" := "hero"]} [];
        mkElement "SECTION" {["id" := "about"]} []]
       "hero" [[0; 1]] (Some 0) true)) = "about".
Proof.
  apply (proj1 (proj2 (active_section_selection _ _))
           [mkEntry 0 true (1 # 2)] [mkEntry 0 true (1 # 5)] (mkEntry 1 true (3 # 10))).
  - reflexivity.
  - eexists. split; [reflexivity |].
    split_and!; [reflexivity | reflexivity | discriminate | reflexivity | reflexivity].
  - intros e' s' He' (el & _ & _ & _ & _ & _ & Hratio).
    apply list_elem_of_singleton in He'. subst e'.
    revert Hratio. vm_compute. discriminate.
Defined.

End ObserverClaims.

(** ** The scenarios of the specification, run on the model *)

Section Scenarios.
Import JS Theme Observer.

(** No stored value and an environment that does not prefer dark: light. *)
Example default_fallback :
  initialIsDark (Some (mkBrowser [] (Some ∅) (Some false))) = Normal false.
Proof. reflexivity. Qed.

(** No stored value and an environment that prefers dark: after the first
    render the root carries [dark] and storage holds ["dark"]; a toggle
    then removes the class and stores ["light"]. *)
Example end_to_end :
  ∃ st st',
    mount (mkBrowser [] (Some ∅) (Some true)) = Normal st ∧
    isDark st = true ∧ rootClassList (window st) = ["dark"] ∧
    storedTheme (window st) = Some "dark" ∧
    toggle st = Normal st' ∧
    isDark st' = false ∧ rootClassList (window st') = [] ∧
    storedTheme (window st') = Some "light".
Proof.
  do 2 eexists. split; [reflexivity |]. cbn [isDark window rootClassList].
  split_and!; try reflexivity.
Qed.

(** A reveal target entering the viewport is marked shown; a section seen
    at one tenth does not become active. *)
Example callback_run :
  callback [mkEntry 1 true (1 # 10); mkEntry 0 true (1 # 10)]
    (mkPage
       [mkElement "SECTION" {["id" := "about"]} [];
        mkElement "DIV" {["data-reveal" := ""]} ["reveal"]]
       "hero" [[0; 1]] (Some 0) true)
  = mkPage
      [mkElement "SECTION" {["id" := "about"]} [];
       mkElement "DIV" {["data-reveal" := ""]} ["reveal"; "show"]]
      "hero" [[0; 1]] (Some 0) true.
Proof. reflexivity. Qed.

(** Attaching on a page with a section and a reveal target observes both. *)
Example attach_run :
  attach (mkPage
    [mkElement "SECTION" {["id" := "about"]} [];
     mkElement "DIV" {["data-reveal" := ""]} ["reveal"]]
    "hero" [] None true)
  = (Normal 0,
     mkPage
       [mkElement "SECTION" {["id" := "about"]} [];
        mkElement "DIV" {["data-reveal" := ""]} ["reveal"]]
       "hero" [[0; 1]] (Some 0) true).
Proof. reflexivity. Qed.

End Scenarios.

(** ** Further properties of the theme preference *)

Section ThemeExtras.
Import JS Theme.

Implicit Types (cl : list string) (store : gmap string string)
  (mm : option bool) (v : bool).

(** X1: with working storage the theme effect completes and touches nothing
    but the class [dark] of the root element and the key [theme] of storage:
    every other class and every other stored key is as before, and so is the
    environment. *)
Theorem themeEffect_touches_only_theme v cl store mm :
  ∃ w store',
    themeEffect v (mkBrowser cl (Some store) mm) = (Normal tt, w) ∧
    prefersDark w = mm ∧
    localStorage w = Some store' ∧
    (∀ c : string, c ≠ "dark" → c ∈ rootClassList w ↔ c ∈ cl) ∧
    (∀ k : string, k ≠ "theme" → store' !! k = store !! k).
Proof.
  do 2 eexists. split; [apply themeEffect_run |]. cbn.
  split_and!; [done | done | |].
  - intros c Hc. destruct v.
    + rewrite elem_of_tokens_add. tauto.
    + rewrite elem_of_tokens_remove. tauto.
  - intros k Hk. by rewrite lookup_insert_ne.
Qed.

Lemma themeEffect_touches_only_theme_witness :
  ∃ w store',
    themeEffect true
      (mkBrowser ["no-js"] (Some {["lang" := "es"]}) (Some false)) = (Normal tt, w) ∧
    localStorage w = Some store' ∧
    ("no-js" ∈ rootClassList w ↔ "no-js" ∈ ["no-js"]) ∧
    store' !! "lang" = Some "es".
Proof.
  destruct (themeEffect_touches_only_theme true ["no-js"] {["lang" := "es"]} (Some false))
    as (w & store' & Hrun & _ & Hst & Hcls & Hkeys).
  exists w, store'. split_and!; [exact Hrun | exact Hst | |].
  - apply Hcls. discriminate.
  - rewrite Hkeys by discriminate. reflexivity.
Defined.

(** X2: a first render that completes fixes the mode for later visits even
    without any toggle: storage then holds the name of the mode, every later
    initial resolution on that storage returns it whatever the environment
    prefers then, and when nothing was stored before, the mode is the one
    the environment preferred at the first render. *)
Theorem first_render_fixes_mode (w : Browser) (st : State) :
  mount w = Normal st →
  storedTheme (window st) = Some (modeName (isDark st)) ∧
  (∀ cl' pref, initialIsDark (Some (reload st cl' pref)) = Normal (isDark st)) ∧
  (storedTheme w = None → prefersDark w = Some (isDark st)).
Proof.
  destruct w as [cl [store |] mm]; unfold mount; [| done].
  destruct (initialIsDark _) as [b | e] eqn:Hinit; [| done].
  rewrite commit_run. intros [= <-]. unfold reload.
  cbn [window isDark localStorage prefersDark]. split_and!.
  - unfold storedTheme. cbn. by rewrite lookup_insert_eq.
  - intros cl' pref. apply initialIsDark_mode. by rewrite lookup_insert_eq.
  - unfold storedTheme. cbn. intros Hnone.
    rewrite initialIsDark_falsy in Hinit by (by rewrite Hnone).
    destruct mm; congruence.
Qed.

Lemma first_render_fixes_mode_witness :
  ∃ st,
    mount (mkBrowser [] (Some ∅) (Some true)) = Normal st ∧
    isDark st = true ∧
    initialIsDark (Some (reload st [] (Some false))) = Normal true.
Proof.
  exists (mkState true (mkBrowser ["dark"] (Some {["theme" := "dark"]}) (Some true))).
  split; [reflexivity |]. split; [reflexivity |].
  exact (proj1 (proj2 (first_render_fixes_mode
    (mkBrowser [] (Some ∅) (Some true)) _ eq_refl)) [] (Some false)).
Defined.

(** X3: when storage cannot be accessed the theme effect raises only after
    it has updated the root element: the window it leaves carries [dark]
    exactly for the dark mode, with every other class as before, while
    nothing was stored. *)
Theorem themeEffect_updates_root_before_failing v cl mm :
  ∃ w,
    themeEffect v (mkBrowser cl None mm) = (Throw SecurityError, w) ∧
    localStorage w = None ∧
    ("dark" ∈ rootClassList w ↔ v = true) ∧
    (∀ c : string, c ≠ "dark" → c ∈ rootClassList w ↔ c ∈ cl).
Proof.
  eexists. split; [apply themeEffect_denied |]. cbn. split; [done |].
  destruct v.
  - split; [rewrite elem_of_tokens_add; by split; [| left] |].
    intros c Hc. rewrite elem_of_tokens_add. tauto.
  - split; [rewrite elem_of_tokens_remove; split; [tauto | done] |].
    intros c Hc. rewrite elem_of_tokens_remove. tauto.
Qed.

Lemma themeEffect_updates_root_before_failing_witness :
  ∃ w,
    themeEffect false (mkBrowser ["dark"; "no-js"] None None) = (Throw SecurityError, w) ∧
    ("no-js" ∈ rootClassList w ↔ "no-js" ∈ ["dark"; "no-js"]).
Proof.
  destruct (themeEffect_updates_root_before_failing false ["dark"; "no-js"] None)
    as (w & Hrun & _ & _ & Hcls).
  exists w. split; [exact Hrun |]. apply Hcls. discriminate.
Defined.

(** X4: in a window with working storage the initial theme is dark exactly
    when the stored value is the string ["dark"], or no value or the empty
    string is stored and the environment prefers dark. *)
Theorem initial_dark_iff cl store mm :
  initialIsDark (Some (mkBrowser cl (Some store) mm)) = Normal true ↔
  store !! "theme" = Some "dark" ∨
  ((store !! "theme" = None ∨ store !! "theme" = Some "") ∧ mm = Some true).
Proof.
  destruct (store !! "theme") as [s |] eqn:Hs.
  - destruct (decide (s = "")) as [-> | Hne].
    + rewrite initialIsDark_falsy by (by rewrite Hs).
      split.
      * destruct mm as [[] |]; [| done | done]. intros _. right. by split; [right |].
      * intros [[=] | [_ ->]]. done.
    + rewrite (initialIsDark_stored _ _ _ s Hs Hne).
      destruct (String.eqb_spec s "dark") as [-> | Hnd].
      * split; [by left | done].
      * split; [done |]. intros [[=] | [[[=] | [=]] _]]; done.
  - rewrite initialIsDark_falsy by (by rewrite Hs).
    split.
    + destruct mm as [[] |]; [| done | done]. intros _. right. by split; [left |].
    + intros [[=] | [_ ->]]. done.
Qed.

Lemma initial_dark_iff_witness :
  initialIsDark (Some (mkBrowser [] (Some {["theme" := ""]}) (Some true))) = Normal true.
Proof.
  apply (initial_dark_iff [] {["theme" := ""]} (Some true)).
  right. split; [right; reflexivity | reflexivity].
Defined.

End ThemeExtras.

(** ** Further properties of the observer callback *)

Section CallbackExtras.
Import JS Observer.

Implicit Types (p : Page) (e : Entry) (es : list Entry) (el : Element).

Lemma classList_add_idem (tok : string) el :
  classList_add tok (classList_add tok el) = classList_add tok el.
Proof. unfold classList_add. cbn. by rewrite tokens_add_idem. Qed.

(** What one entry leaves at each position of the document. *)
Lemma onEntry_lookup e p (i : nat) el :
  elements p !! i = Some el →
  elements (onEntry e p) !! i =
  Some (if bool_decide (target e = i) then revealed e el else el).
Proof.
  intros Hi. unfold onEntry, revealed. case_bool_decide as Ht.
  - rewrite Ht, Hi.
    assert (∀ q, elements
      (if String.eqb (tagName el) "SECTION" && truthy (Some (elementId el)) then
         if isIntersecting e && Qgtb (intersectionRatio e) (1 # 4)
         then setActive (elementId el) q else q
       else q) = elements q) as -> by (intros q; by repeat case_match).
    destruct (hasAttribute "data-reveal" el), (isIntersecting e); cbn [andb]; try done.
    cbn [elements setElements].
    apply list_lookup_insert_eq. by eapply lookup_lt_Some.
  - destruct (elements p !! target e) as [el0 |] eqn:Hel0; [| done].
    assert (∀ q, elements
      (if String.eqb (tagName el0) "SECTION" && truthy (Some (elementId el0)) then
         if isIntersecting e && Qgtb (intersectionRatio e) (1 # 4)
         then setActive (elementId el0) q else q
       else q) = elements q) as -> by (intros q; by repeat case_match).
    destruct (hasAttribute "data-reveal" el0), (isIntersecting e); try done.
    cbn [elements setElements]. by rewrite list_lookup_insert_ne.
Qed.

(** What a batch leaves at each position of the document. *)
Lemma callback_lookup es p (i : nat) el :
  elements p !! i = Some el →
  elements (callback es p) !! i =
  Some (if hasAttribute "data-reveal" el &&
           existsb (fun e => bool_decide (target e = i) && isIntersecting e) es
        then classList_add "show" el else el).
Proof.
  revert p el. induction es as [| e es IH]; intros p el Hi.
  - cbn. by rewrite andb_false_r.
  - cbn [callback fold_left]. fold (callback es (onEntry e p)).
    rewrite (IH _ _ (onEntry_lookup e p i el Hi)). f_equal.
    cbn [existsb]. unfold revealed.
    destruct (bool_decide (target e = i)); cbn [andb orb]; [| done].
    destruct (hasAttribute "data-reveal" el) eqn:Hrev; cbn [andb]; [| by rewrite Hrev].
    destruct (isIntersecting e); cbn [orb]; [| by rewrite Hrev].
    replace (hasAttribute "data-reveal" (classList_add "show" el)) with true by done.
    cbn [andb]. rewrite classList_add_idem. by case_match.
Qed.

Lemma deliver_concat (batches : list (list Entry)) p :
  deliver batches p = callback (concat batches) p.
Proof.
  revert p. induction batches as [| es batches IH]; intros p; [done |].
  cbn [deliver fold_left concat]. fold (deliver batches (callback es p)).
  by rewrite IH, callback_app.
Qed.

Lemma onEntry_frame e p :
  observers (onEntry e p) = observers p ∧
  observerRef (onEntry e p) = observerRef p ∧
  hasIntersectionObserver (onEntry e p) = hasIntersectionObserver p.
Proof. unfold onEntry. by repeat case_match. Qed.

Lemma callback_frame es p :
  observers (callback es p) = observers p ∧
  observerRef (callback es p) = observerRef p ∧
  hasIntersectionObserver (callback es p) = hasIntersectionObserver p.
Proof.
  revert p. induction es as [| e es IH]; intros p; [done |].
  cbn [callback fold_left]. fold (callback es (onEntry e p)).
  destruct (IH (onEntry e p)) as (-> & -> & ->). apply onEntry_frame.
Qed.

(** One entry either leaves the active section alone or qualifies the
    section that is active after it. *)
Lemma active_onEntry_cases e p :
  active (onEntry e p) = active p ∨
  qualifying (elements p) e (active (onEntry e p)).
Proof.
  unfold onEntry.
  destruct (elements p !! target e) as [el |] eqn:Hel; [| by left].
  destruct (String.eqb_spec (tagName el) "SECTION") as [Htag | _];
    cbn [andb truthy]; [| left; by repeat case_match].
  destruct (String.eqb_spec (elementId el) "") as [Hid | Hid];
    cbn [negb]; [left; by repeat case_match |].
  destruct (isIntersecting e) eqn:Hint; cbn [andb]; [| left; by repeat case_match].
  destruct (Qgtb (intersectionRatio e) (1 # 4)) eqn:Hratio;
    [| left; by repeat case_match].
  right. exists el.
  assert (active (if hasAttribute "data-reveal" el
      then setActive (elementId el)
             (setElements (<[target e := classList_add "show" el]> (elements p)) p)
      else setActive (elementId el) p) = elementId el) as Hact by (by case_match).
  replace (active _) with (elementId el) by (symmetry; by case_match).
  split_and!; [done | done | done | done | done | by apply Qgtb_true].
Qed.

Lemma active_callback_range es (els : list Element) p :
  grows els (elements p) →
  active (callback es p) = active p ∨
  ∃ e, e ∈ es ∧ qualifying els e (active (callback es p)).
Proof.
  revert p. induction es as [| e es IH]; intros p Hg; [by left |].
  cbn [callback fold_left]. fold (callback es (onEntry e p)).
  destruct (IH (onEntry e p)) as [Hsame | (e' & He' & Hq)].
  - eapply grows_trans; [exact Hg | apply onEntry_grows].
  - rewrite Hsame. destruct (active_onEntry_cases e p) as [-> | Hq]; [by left |].
    right. exists e. split; [apply list_elem_of_here |].
    by apply (qualifying_grows els (elements p)).
  - right. exists e'. split; [by apply list_elem_of_further | done].
Qed.

(** X5: a batch in which no entry is intersecting leaves the whole page as
    it was: no class is added and the active section stays. *)
Theorem hidden_entries_change_nothing es p :
  (∀ e, e ∈ es → isIntersecting e = false) → callback es p = p.
Proof.
  revert p. induction es as [| e es IH]; intros p Hall; [done |].
  cbn [callback fold_left]. fold (callback es (onEntry e p)).
  assert (onEntry e p = p) as ->.
  { unfold onEntry. rewrite (Hall e) by apply list_elem_of_here.
    cbn [andb]. by repeat case_match. }
  apply IH. intros e' He'. apply Hall. by apply list_elem_of_further.
Qed.

Lemma hidden_entries_change_nothing_witness :
  callback [mkEntry 1 false 0; mkEntry 0 false (1 # 2)] (Render.initialPage true)
  = Render.initialPage true.
Proof.
  apply hidden_entries_change_nothing.
  intros e He. apply elem_of_cons in He as [-> | He]; [reflexivity |].
  apply list_elem_of_singleton in He as ->. reflexivity.
Defined.

(** X6: after a batch an element carries [show] exactly when it carried it
    before or it has the [data-reveal] attribute and some entry of the batch
    for it is intersecting, whatever the ratio and the order of the batch. *)
Theorem shown_after_callback es p (i : nat) el :
  elements p !! i = Some el →
  ∃ el', elements (callback es p) !! i = Some el' ∧
    (shown el' ↔
     shown el ∨
     (hasAttribute "data-reveal" el = true ∧
      ∃ e, e ∈ es ∧ target e = i ∧ isIntersecting e = true)).
Proof.
  intros Hi. eexists. split; [by apply callback_lookup |].
  destruct (hasAttribute "data-reveal" el) eqn:Hrev; cbn [andb].
  - destruct (existsb _ es) eqn:Hex.
    + apply existsb_exists in Hex as (e & He & Hcond).
      apply andb_true_iff in Hcond as [Ht Hint]. apply bool_decide_eq_true in Ht.
      apply list_elem_of_In in He.
      split; [intros _; right; eauto |].
      intros _. unfold shown, classList_add. cbn.
      apply elem_of_tokens_add. by left.
    + split; [by left |]. intros [Hs | (_ & e & He & Ht & Hint)]; [done |].
      exfalso. apply not_true_iff_false in Hex. apply Hex.
      apply existsb_exists. exists e. split; [by apply list_elem_of_In |].
      rewrite Hint, andb_true_r. by apply bool_decide_eq_true.
  - split; [by left |]. by intros [Hs | [[=] _]].
Qed.

Lemma shown_after_callback_witness :
  ∃ el',
    elements (callback [mkEntry 0 true (1 # 10); mkEntry 1 true (1 # 100)]
                (Render.initialPage true)) !! 1 = Some el' ∧
    shown el'.
Proof.
  destruct (shown_after_callback [mkEntry 0 true (1 # 10); mkEntry 1 true (1 # 100)]
              (Render.initialPage true) 1
              (mkElement "DIV" {["data-reveal" := ""]} ["reveal"]) eq_refl)
    as (el' & Hel' & Hiff).
  exists el'. split; [exact Hel' |]. apply Hiff. right.
  split; [reflexivity |]. exists (mkEntry 1 true (1 # 100)).
  split; [apply list_elem_of_further, list_elem_of_here | split; reflexivity].
Defined.

(** X7: whatever batches are delivered, the callback creates, disconnects
    and replaces no observer, and each element is afterwards either exactly
    as it was or, if it has the [data-reveal] attribute, as it was with the
    class [show] added; an element without [data-reveal] is never modified. *)
Theorem deliver_only_reveals (batches : list (list Entry)) p :
  observers (deliver batches p) = observers p ∧
  observerRef (deliver batches p) = observerRef p ∧
  length (elements (deliver batches p)) = length (elements p) ∧
  ∀ (i : nat) el, elements p !! i = Some el →
    elements (deliver batches p) !! i = Some el ∨
    (hasAttribute "data-reveal" el = true ∧
     elements (deliver batches p) !! i = Some (classList_add "show" el)).
Proof.
  rewrite deliver_concat.
  destruct (callback_frame (concat batches) p) as (-> & -> & _).
  split_and!; [done | done | apply (callback_grows (concat batches) p) |].
  intros i el Hi. rewrite (callback_lookup _ _ _ _ Hi).
  destruct (hasAttribute "data-reveal" el); cbn [andb]; [| by left].
  destruct (existsb _ _); [by right | by left].
Qed.

Lemma deliver_only_reveals_witness :
  elements (deliver [[mkEntry 0 true 1]; [mkEntry 3 true (1 # 2)]]
              (Render.initialPage true)) !! 0
  = Some (mkElement "SECTION" {["id" := "hero"]}
            ["border-b"; "border-zinc-200/60"; "dark:border-zinc-800/60"]).
Proof.
  destruct (proj2 (proj2 (proj2 (deliver_only_reveals
      [[mkEntry 0 true 1]; [mkEntry 3 true (1 # 2)]] (Render.initialPage true))))
      0 _ eq_refl) as [Hsame | [Hrev _]].
  - exact Hsame.
  - discriminate Hrev.
Defined.

(** X8: the unchecked cast [target.id as SectionId] is sound on a document
    whose sections carry ids of the type: if every [SECTION] element with a
    non-empty id has one of the five section ids and the active section is
    one of them, it still is one of them after any batches. *)
Theorem active_stays_a_section_id (batches : list (list Entry)) p :
  (∀ el, el ∈ elements p → tagName el = "SECTION" → elementId el ≠ "" →
     elementId el ∈ Render.SectionIds) →
  active p ∈ Render.SectionIds →
  active (deliver batches p) ∈ Render.SectionIds.
Proof.
  intros Hids Hact. rewrite deliver_concat.
  destruct (active_callback_range (concat batches) (elements p) p (grows_refl _))
    as [-> | (e & _ & el & Hel & Htag & Hid & Hne & _)]; [done |].
  rewrite <- Hid. apply Hids; [by eapply list_elem_of_lookup_2 | done | by rewrite Hid].
Qed.

Lemma active_stays_a_section_id_witness :
  active (deliver [[mkEntry 3 true (1 # 2)]; [mkEntry 13 true 1; mkEntry 5 true (1 # 4)]]
            (Render.initialPage true)) ∈ Render.SectionIds.
Proof.
  apply active_stays_a_section_id.
  - intros el Hel Htag Hne.
    unfold Render.initialPage, Render.observedMarkup in Hel. cbn [elements] in Hel.
    repeat (apply elem_of_cons in Hel as [-> | Hel];
            [first [discriminate Htag | vm_compute; set_solver] |]).
    by apply elem_of_nil in Hel.
  - vm_compute. set_solver.
Defined.

End CallbackExtras.

(** ** Further properties of attaching and detaching *)

Section AttachExtras.
Import JS Observer.

Implicit Types (p : Page) (ts : list nat) (el : Element).

Lemma elem_of_addTarget ts (t u : nat) : u ∈ addTarget ts t ↔ u ∈ ts ∨ u = t.
Proof.
  unfold addTarget. case_bool_decide as Hin.
  - split; [by left |]. intros [? | ->]; done.
  - rewrite elem_of_app, list_elem_of_singleton. tauto.
Qed.

Lemma NoDup_addTarget ts (t : nat) : NoDup ts → NoDup (addTarget ts t).
Proof.
  intros Hnd. unfold addTarget. case_bool_decide as Hin; [done |].
  apply NoDup_app. split_and!; [done | | apply NoDup_singleton].
  intros x Hx Hx'. apply list_elem_of_singleton in Hx'. by subst.
Qed.

Lemma elem_of_foldl_addTarget (new : list nat) ts (u : nat) :
  u ∈ foldl addTarget ts new ↔ u ∈ ts ∨ u ∈ new.
Proof.
  revert ts. induction new as [| t new IH]; intros ts; cbn [foldl].
  - rewrite elem_of_nil. tauto.
  - rewrite IH, elem_of_addTarget, elem_of_cons. tauto.
Qed.

Lemma NoDup_foldl_addTarget (new : list nat) ts :
  NoDup ts → NoDup (foldl addTarget ts new).
Proof.
  revert ts. induction new as [| t new IH]; intros ts Hnd; [done |].
  cbn [foldl]. by apply IH, NoDup_addTarget.
Qed.

Lemma elem_of_selectFrom (sel : Element → bool) (els : list Element) (n t : nat) :
  t ∈ selectFrom n sel els ↔
  ∃ el, (n ≤ t)%nat ∧ els !! (t - n) = Some el ∧ sel el = true.
Proof.
  revert n. induction els as [| el0 els IH]; intros n; cbn [selectFrom].
  - rewrite elem_of_nil. split; [done |]. by intros (el & _ & [=] & _).
  - assert (t ∈ selectFrom (S n) sel els ↔
            ∃ el, (n < t)%nat ∧ (el0 :: els) !! (t - n) = Some el ∧ sel el = true) as Htail.
    { rewrite IH. split; intros (el & Hle & Hel & Hsel); exists el.
      - split; [lia |]. split; [| done].
        replace (t - n) with (S (t - S n)) by lia. done.
      - split; [lia |]. split; [| done].
        replace (t - n) with (S (t - S n)) in Hel by lia. done. }
    assert ((∃ el, (n ≤ t)%nat ∧ (el0 :: els) !! (t - n) = Some el ∧ sel el = true) ↔
            (t = n ∧ sel el0 = true) ∨
            ∃ el, (n < t)%nat ∧ (el0 :: els) !! (t - n) = Some el ∧ sel el = true) as ->.
    { split.
      - intros (el & Hle & Hel & Hsel).
        destruct (decide (t = n)) as [-> | Hne].
        + left. rewrite Nat.sub_diag in Hel. injection Hel as ->. done.
        + right. exists el. split; [lia | done].
      - intros [[-> Hsel] | (el & Hlt & Hel & Hsel)].
        + exists el0. rewrite Nat.sub_diag. done.
        + exists el. split; [lia | done]. }
    destruct (sel el0) eqn:Hsel0.
    + rewrite elem_of_cons, Htail. tauto.
    + rewrite Htail. split; [by right |]. by intros [[_ [=]] | ?].
Qed.

Lemma setObservers_id p : setObservers (observers p) p = p.
Proof. by destruct p. Qed.

(** What observing a list of targets does to the observer. *)
Lemma forEach_observe_result (o : nat) ts p :
  forEach ts (observe o) p =
  (Normal tt,
   setObservers (alter (fun l : list nat => foldl addTarget l ts) o (observers p)) p).
Proof.
  revert p. induction ts as [| t ts IH]; intros p.
  - cbn [forEach foldl]. unfold ret.
    by rewrite list_alter_id, setObservers_id.
  - cbn [forEach]. unfold bind at 1. unfold observe at 1, modify.
    rewrite IH. f_equal. unfold setObservers at 1 2. cbn.
    rewrite list_alter_alter_eq. reflexivity.
Qed.

(** What attaching returns and leaves on a host with
    [IntersectionObserver]. *)
Lemma attach_result p :
  hasIntersectionObserver p = true →
  attach p =
  (Normal (length (observers p)),
   setObserverRef (Some (length (observers p)))
     (setObservers
        (afterDisconnect p ++
         [foldl addTarget
            (foldl addTarget [] (selectFrom 0 sel_section_id (elements p)))
            (selectFrom 0 sel_data_reveal (elements p))])%list p)).
Proof.
  intros Hio. unfold attach, bind at 1 2, querySelectorAll.
  unfold bind at 1.
  assert (disconnectCurrent p = (Normal tt, setObservers (afterDisconnect p) p)) as ->.
  { unfold disconnectCurrent, afterDisconnect, bind, get.
    destruct (observerRef p); [done |]. unfold ret. by rewrite setObservers_id. }
  unfold bind at 1. unfold newIntersectionObserver.
  cbn [hasIntersectionObserver setObservers observers]. rewrite Hio.
  assert (length (afterDisconnect p) = length (observers p)) as Hlen.
  { unfold afterDisconnect. destruct (observerRef p); [apply length_insert | done]. }
  rewrite Hlen.
  unfold bind at 1. rewrite forEach_observe_result.
  unfold bind at 1. rewrite forEach_observe_result.
  unfold bind, modify, ret. f_equal.
  unfold setObserverRef, setObservers. cbn. f_equal.
  rewrite list_alter_alter_eq.
  replace (length (observers p)) with (length (afterDisconnect p) + 0) by lia.
  by rewrite alter_app_r.
Qed.

(** X9: on a host with [IntersectionObserver] attaching completes, stores
    the new observer in [observerRef], and that observer observes each
    section that has an [id] attribute and each element with a [data-reveal]
    attribute exactly once, and nothing else; the document and the active
    section are untouched. *)
Theorem attach_observes_sections_and_reveals p :
  hasIntersectionObserver p = true →
  ∃ (o : nat) p' ts,
    attach p = (Normal o, p') ∧
    observerRef p' = Some o ∧
    observers p' !! o = Some ts ∧
    elements p' = elements p ∧ active p' = active p ∧
    NoDup ts ∧
    ∀ t : nat, t ∈ ts ↔
      ∃ el, elements p !! t = Some el ∧
        ((tagName el = "SECTION" ∧ is_Some (attributes el !! "id")) ∨
         is_Some (attributes el !! "data-reveal")).
Proof.
  intros Hio. do 3 eexists. split; [by apply attach_result |].
  assert (length (afterDisconnect p) = length (observers p)) as Hlen.
  { unfold afterDisconnect. destruct (observerRef p); [apply length_insert | done]. }
  cbn [observerRef observers elements active setObserverRef setObservers].
  split_and!; [done | | done | done | |].
  - rewrite lookup_app_r by lia. by rewrite Hlen, Nat.sub_diag.
  - apply NoDup_foldl_addTarget, NoDup_foldl_addTarget, NoDup_nil_2.
  - intros t. rewrite !elem_of_foldl_addTarget, elem_of_nil, !elem_of_selectFrom.
    rewrite Nat.sub_0_r. unfold sel_section_id, sel_data_reveal, hasAttribute.
    split.
    + intros [[[] | (el & _ & Hel & Hsel)] | (el & _ & Hel & Hsel)]; exists el.
      * apply andb_true_iff in Hsel as [Htag Hid].
        apply String.eqb_eq in Htag. apply bool_decide_eq_true in Hid.
        split; [done | by left].
      * apply bool_decide_eq_true in Hsel. split; [done | by right].
    + intros (el & Hel & [[Htag Hid] | Hrev]).
      * left. right. exists el. split; [lia |]. split; [done |].
        apply andb_true_iff. split; [by apply String.eqb_eq | by apply bool_decide_eq_true].
      * right. exists el. split; [lia |]. split; [done |].
        by apply bool_decide_eq_true.
Qed.

Lemma attach_observes_sections_and_reveals_witness :
  ∃ (o : nat) p' ts,
    attach (Render.initialPage true) = (Normal o, p') ∧
    observers p' !! o = Some ts ∧ NoDup ts ∧ 13 ∈ ts ∧ 14 ∉ ts.
Proof.
  destruct (attach_observes_sections_and_reveals (Render.initialPage true) eq_refl)
    as (o & p' & ts & Hrun & _ & Hts & _ & _ & Hnd & Hiff).
  exists o, p', ts. split_and!; [exact Hrun | exact Hts | exact Hnd | |].
  - apply Hiff. eexists. split; [reflexivity |]. left.
    split; [reflexivity |]. eexists. reflexivity.
  - intros Hin. apply Hiff in Hin as (el & Hel & _). discriminate Hel.
Defined.

End AttachExtras.

Section LifecycleExtras.
Import JS Observer.

Implicit Types (p : Page) (ts : list nat).

(** After [observerRef.current?.disconnect()] no observer observes anything,
    provided only the current one did. *)
Lemma afterDisconnect_empty p (o : nat) ts :
  onlyCurrentObserves p → afterDisconnect p !! o = Some ts → ts = [].
Proof.
  intros Hinv. unfold afterDisconnect.
  destruct (observerRef p) as [o0 |] eqn:Href; intros Hts.
  - destruct (decide (o = o0)) as [-> | Hne].
    + pose proof (lookup_lt_Some _ _ _ Hts) as Hlt. rewrite length_insert in Hlt.
      rewrite list_lookup_insert_eq in Hts by done. congruence.
    + rewrite list_lookup_insert_ne in Hts by done.
      destruct ts as [| t ts]; [done |].
      assert (Some o0 = Some o) by (rewrite <- Href; by eapply Hinv). congruence.
  - destruct ts as [| t ts]; [done |].
    assert (@None nat = Some o) by (rewrite <- Href; by eapply Hinv). done.
Qed.

(** X10: at most one observer is ever connected. If only the observer held
    in [observerRef] observes elements, the same holds after attaching
    (which disconnects the previous observer and creates a fresh one), after
    the cleanup of any observer, and after any batches; and the cleanup of
    the current observer leaves no observer observing anything. *)
Theorem only_current_observer_observes p :
  onlyCurrentObserves p →
  (∀ (o : nat) p', attach p = (Normal o, p') →
     onlyCurrentObserves p' ∧ observers p !! o = None) ∧
  (∀ o : nat, onlyCurrentObserves (snd (detach o p))) ∧
  (∀ o : nat, observerRef p = Some o →
     ∀ (o' : nat) ts, observers (snd (detach o p)) !! o' = Some ts → ts = []) ∧
  (∀ batches, onlyCurrentObserves (deliver batches p)).
Proof.
  intros Hinv. split_and!.
  - intros o p' Hrun.
    destruct (hasIntersectionObserver p) eqn:Hio.
    + rewrite attach_result in Hrun by done. injection Hrun as <- <-.
      assert (length (afterDisconnect p) = length (observers p)) as Hlen.
      { unfold afterDisconnect. destruct (observerRef p); [apply length_insert | done]. }
      split; [| by apply lookup_ge_None].
      intros o1 ts1 Hts1 Hne.
      cbn [observerRef observers setObserverRef setObservers] in *.
      destruct (decide (o1 < length (afterDisconnect p))%nat) as [Hlt | Hge].
      * rewrite lookup_app_l in Hts1 by done.
        by apply afterDisconnect_empty in Hts1.
      * apply lookup_lt_Some in Hts1 as Hlt.
        rewrite length_app in Hlt. cbn in Hlt. f_equal. lia.
    + exfalso. revert Hrun. unfold attach, bind at 1 2, querySelectorAll.
      destruct (disconnectCurrent_run p) as (p1 & Hrun1 & _ & _ & _ & Hio1 & _).
      unfold bind at 1. rewrite Hrun1.
      unfold bind at 1. unfold newIntersectionObserver. by rewrite Hio1, Hio.
  - intros o o1 ts1 Hts1 Hne. cbn in *.
    destruct (decide (o1 = o)) as [-> | Hneq].
    + pose proof (lookup_lt_Some _ _ _ Hts1) as Hlt. rewrite length_insert in Hlt.
      rewrite list_lookup_insert_eq in Hts1 by done. congruence.
    + rewrite list_lookup_insert_ne in Hts1 by done. by eapply Hinv.
  - intros o Href o' ts Hts. cbn in Hts.
    destruct (decide (o' = o)) as [-> | Hneq].
    + pose proof (lookup_lt_Some _ _ _ Hts) as Hlt. rewrite length_insert in Hlt.
      rewrite list_lookup_insert_eq in Hts by done. congruence.
    + rewrite list_lookup_insert_ne in Hts by done.
      destruct ts as [| t ts]; [done |].
      assert (Some o = Some o') by (rewrite <- Href; by eapply Hinv). congruence.
  - intros batches o ts. rewrite deliver_concat.
    destruct (callback_frame (concat batches) p) as (-> & -> & _). apply Hinv.
Qed.

Lemma only_current_observer_observes_witness :
  attach (mkPage [mkElement "SECTION" {["id" := "about"]} [];
                  mkElement "DIV" {["data-reveal" := ""]} ["reveal"]]
                 "hero" [[0; 1]] (Some 0) true)
  = (Normal 1,
     mkPage [mkElement "SECTION" {["id" := "about"]} [];
             mkElement "DIV" {["data-reveal" := ""]} ["reveal"]]
            "hero" [[]; [0; 1]] (Some 1) true) ∧
  onlyCurrentObserves
    (mkPage [mkElement "SECTION" {["id" := "about"]} [];
             mkElement "DIV" {["data-reveal" := ""]} ["reveal"]]
            "hero" [[]; [0; 1]] (Some 1) true).
Proof.
  assert (attach (mkPage [mkElement "SECTION" {["id" := "about"]} [];
                          mkElement "DIV" {["data-reveal" := ""]} ["reveal"]]
                         "hero" [[0; 1]] (Some 0) true)
          = (Normal 1,
             mkPage [mkElement "SECTION" {["id" := "about"]} [];
                     mkElement "DIV" {["data-reveal" := ""]} ["reveal"]]
                    "hero" [[]; [0; 1]] (Some 1) true)) as Hrun by reflexivity.
  split; [exact Hrun |].
  refine (proj1 (proj1 (only_current_observer_observes _ _) _ _ Hrun)).
  intros o ts Hts Hne. cbn [observers observerRef] in *.
  destruct o as [| o]; [reflexivity |].
  destruct o; cbn in Hts; [congruence | discriminate Hts].
Defined.

End LifecycleExtras.

(** ** The navigation bar *)

Section RenderExtras.
Import Render.

Lemma navItem_highlighted (id label active : string) :
  highlighted (navItem id label active) = String.eqb active id ∧
  emphasised (navItem id label active) = String.eqb active id.
Proof.
  unfold highlighted, emphasised, navItem, navUnderlineClass, navLinkClass.
  cbn [underlineClass linkClass].
  destruct (String.eqb active id); split; by vm_compute.
Qed.

(** X11: whatever the active section, a navigation link is highlighted (bar
    at full width) exactly when it links to the active section, its text is
    emphasised exactly when it is highlighted, and at most one of the four
    links is highlighted; with [hero] active, as initially, none is. *)
Theorem nav_highlights_active_link (active : string) :
  (∀ item, item ∈ nav active →
     (highlighted item = true ↔ href item = "#" ++ active) ∧
     emphasised item = highlighted item) ∧
  (length (List.filter highlighted (nav active)) ≤ 1)%nat ∧
  (active = "hero" → List.filter highlighted (nav active) = []).
Proof.
  split_and!.
  - intros item Hin. unfold nav in Hin.
    repeat (apply elem_of_cons in Hin as [-> | Hin]);
      [| | | | by apply elem_of_nil in Hin];
      match goal with
      | |- context [navItem ?id ?l active] =>
          destruct (navItem_highlighted id l active) as [-> ->];
          (split; [| done]); cbn [href navItem String.append];
          rewrite String.eqb_eq; split; [by intros -> | intros [= Heq]; cbv in Heq; congruence]
      end.
  - unfold nav. cbn [List.filter].
    rewrite !(proj1 (navItem_highlighted _ _ _)).
    destruct (String.eqb_spec active "about") as [-> | _]; [cbn; lia |].
    destruct (String.eqb_spec active "skills") as [-> | _]; [cbn; lia |].
    destruct (String.eqb_spec active "projects") as [-> | _]; [cbn; lia |].
    destruct (String.eqb active "contact"); cbn; lia.
  - intros ->. reflexivity.
Qed.

Lemma nav_highlights_active_link_witness :
  List.filter highlighted (nav "hero") = [].
Proof. apply (nav_highlights_active_link "hero"). reflexivity. Defined.

End RenderExtras.
